(** * webpack.config.js of ff7-viewer

    The repository's build configuration is one CommonJS module.  At load
    time it resolves two directories against [__dirname] with Node's
    [path.resolve], builds one configuration object and exports it.

    The development below embeds that module: the configuration object as
    records (objects used as maps are [gmap]s), the two plugin invocations
    as a tagged union holding the options they were constructed with, and
    Node's [path] module as an interface with its POSIX implementation
    written out, so that the configuration can be evaluated on concrete
    directories. *)

From Stdlib Require Import ZArith Ascii String.
From stdpp Require Import strings list gmap.

Local Open Scope string_scope.

(** ** JavaScript string primitives used by Node's [path]

    Paths are taken to be ASCII, so that a JavaScript string (UTF-16 code
    units) and a Rocq [string] (bytes) index the same way. *)

Module JsString.

Definition len (s : string) : Z := Z.of_nat (String.length s).

(** [s.charCodeAt(i)], with [None] for JavaScript's [NaN] out of range. *)
Definition charCodeAt (s : string) (i : Z) : option ascii :=
  if (i <? 0)%Z then None else String.get (Z.to_nat i) s.

(** [s.slice(a, b)] for [0 <= a], [0 <= b]. *)
Definition slice (s : string) (a b : Z) : string :=
  String.substring (Z.to_nat a) (Z.to_nat (b - a)) s.

(** Position of the last occurrence of the character [c] among the
    characters of [s] numbered from [i] on, [-1] when there is none. *)
Fixpoint lastIndexOf_from (c : ascii) (s : string) (i : Z) : Z :=
  match s with
  | EmptyString => (-1)%Z
  | String d s' =>
      let later := lastIndexOf_from c s' (i + 1) in
      if (0 <=? later)%Z then later
      else if Ascii.eqb d c then i else (-1)%Z
  end.

(** [s.lastIndexOf(c)] for a one-character search string. *)
Definition lastIndexOf (s : string) (c : ascii) : Z :=
  lastIndexOf_from c s 0.

(** [s.endsWith(t)]. *)
Definition endsWith (s t : string) : bool :=
  let n := String.length s in
  let m := String.length t in
  if (m <=? n)%nat then String.eqb (String.substring (n - m) m s) t
  else false.

(** [s.includes(t)]. *)
Fixpoint includes (s t : string) : bool :=
  String.prefix t s ||
  match s with
  | EmptyString => false
  | String _ s' => includes s' t
  end.

End JsString.

(** ** Node's [path] module, as the configuration uses it *)

(** The one function the configuration calls.  [resolve] is variadic. *)
Record PathModule := { resolve : list string -> string }.

(** *** The POSIX implementation ([path.posix] in Node's [lib/path.js])

    [resolve] reads the process's working directory when none of its
    arguments is absolute; the working directory is an explicit argument
    here. *)

Module posix.

Definition CHAR_FORWARD_SLASH : ascii := "/"%char.
Definition CHAR_DOT : ascii := "."%char.

Definition isPosixPathSeparator (code : ascii) : bool :=
  Ascii.eqb code CHAR_FORWARD_SLASH.

(** The local variables of [normalizeString]'s loop. *)
Record NormState := {
  res : string;
  lastSegmentLength : Z;
  lastSlash : Z;
  dots : Z
}.

Definition isChar (o : option ascii) (c : ascii) : bool :=
  match o with
  | Some d => Ascii.eqb d c
  | None => false
  end.

(** A [..] segment that cannot remove anything: kept only above the root
    of a relative path. *)
Definition aboveRoot (allowAboveRoot : bool) (i : Z) (st : NormState)
  : NormState :=
  if allowAboveRoot then
    {| res := if (0 <? JsString.len (res st))%Z
              then res st ++ "/.." else "..";
       lastSegmentLength := 2;
       lastSlash := i;
       dots := 0 |}
  else
    {| res := res st;
       lastSegmentLength := lastSegmentLength st;
       lastSlash := i;
       dots := 0 |}.

(** One iteration of the loop of [normalizeString], at index [i] with
    character code [code]. *)
Definition normalizeStep (path : string) (allowAboveRoot : bool)
    (i : Z) (code : ascii) (st : NormState) : NormState :=
  if isPosixPathSeparator code then
    if (lastSlash st =? i - 1)%Z || (dots st =? 1)%Z then
      {| res := res st;
         lastSegmentLength := lastSegmentLength st;
         lastSlash := i;
         dots := 0 |}
    else if (dots st =? 2)%Z then
      let n := JsString.len (res st) in
      if (n <? 2)%Z
         || negb (lastSegmentLength st =? 2)%Z
         || negb (isChar (JsString.charCodeAt (res st) (n - 1)) CHAR_DOT)
         || negb (isChar (JsString.charCodeAt (res st) (n - 2)) CHAR_DOT)
      then
        if (2 <? n)%Z then
          let lastSlashIndex :=
            JsString.lastIndexOf (res st) CHAR_FORWARD_SLASH in
          if (lastSlashIndex =? -1)%Z then
            {| res := ""; lastSegmentLength := 0;
               lastSlash := i; dots := 0 |}
          else
            let res' := JsString.slice (res st) 0 lastSlashIndex in
            {| res := res';
               lastSegmentLength :=
                 JsString.len res' - 1
                 - JsString.lastIndexOf res' CHAR_FORWARD_SLASH;
               lastSlash := i; dots := 0 |}
        else if negb (n =? 0)%Z then
          {| res := ""; lastSegmentLength := 0;
             lastSlash := i; dots := 0 |}
        else aboveRoot allowAboveRoot i st
      else aboveRoot allowAboveRoot i st
    else
      let segment := JsString.slice path (lastSlash st + 1) i in
      {| res := if (0 <? JsString.len (res st))%Z
                then res st ++ "/" ++ segment else segment;
         lastSegmentLength := i - lastSlash st - 1;
         lastSlash := i;
         dots := 0 |}
  else if Ascii.eqb code CHAR_DOT && negb (dots st =? -1)%Z then
    {| res := res st;
       lastSegmentLength := lastSegmentLength st;
       lastSlash := lastSlash st;
       dots := dots st + 1 |}
  else
    {| res := res st;
       lastSegmentLength := lastSegmentLength st;
       lastSlash := lastSlash st;
       dots := -1 |}.

(** The loop [for (i = 0; i <= path.length; ++i)]: [rest] is what is
    left of [path] from index [i], [code] the code of the previous
    iteration.  Past the end a separator is supplied, unless the path
    already ended in one. *)
Fixpoint normalizeLoop (path : string) (allowAboveRoot : bool)
    (rest : string) (i : Z) (code : ascii) (st : NormState) : NormState :=
  match rest with
  | String c rest' =>
      normalizeLoop path allowAboveRoot rest' (i + 1) c
        (normalizeStep path allowAboveRoot i c st)
  | EmptyString =>
      if isPosixPathSeparator code then st
      else normalizeStep path allowAboveRoot i CHAR_FORWARD_SLASH st
  end.

(** Resolves [.] and [..] elements in a path with directory names. *)
Definition normalizeString (path : string) (allowAboveRoot : bool)
  : string :=
  res (normalizeLoop path allowAboveRoot path 0 "000"%char
         {| res := ""; lastSegmentLength := 0;
            lastSlash := -1; dots := 0 |}).

Definition isAbsolute (path : string) : bool :=
  isChar (JsString.charCodeAt path 0) CHAR_FORWARD_SLASH.

(** The loop of [resolve], from the last argument towards the first and
    then on to the working directory, until an absolute path is met.
    Returns [resolvedPath] and [resolvedAbsolute]. *)
Fixpoint resolveLoop (cwd : string) (rargs : list string)
    (resolvedPath : string) : string * bool :=
  match rargs with
  | [] =>
      if (JsString.len cwd =? 0)%Z then (resolvedPath, false)
      else (cwd ++ "/" ++ resolvedPath, isAbsolute cwd)
  | path :: rargs' =>
      if (JsString.len path =? 0)%Z then
        resolveLoop cwd rargs' resolvedPath
      else if isAbsolute path then (path ++ "/" ++ resolvedPath, true)
      else resolveLoop cwd rargs' (path ++ "/" ++ resolvedPath)
  end.

Definition resolve (cwd : string) (args : list string) : string :=
  let '(resolvedPath, resolvedAbsolute) := resolveLoop cwd (rev args) "" in
  let resolvedPath := normalizeString resolvedPath (negb resolvedAbsolute) in
  if resolvedAbsolute then "/" ++ resolvedPath
  else if (0 <? JsString.len resolvedPath)%Z then resolvedPath
  else ".".

End posix.

(** Node's [path] on a POSIX host whose process runs in [cwd]. *)
Definition posix_path (cwd : string) : PathModule :=
  {| resolve := posix.resolve cwd |}.

(** ** The configuration object

    The shape of webpack's [Configuration], restricted to the fields the
    module sets. *)

Module Output.
Record t := { path : string; filename : string }.
End Output.

Module Static.
Record t := { directory : string }.
End Static.

Module DevServer.
Record t := { static : Static.t }.
End DevServer.

(** The options object passed to [new CopyWebpackPlugin(...)]. *)
Module CopyWebpackPlugin.
Record Pattern := { from : string; to : string }.
Record Options := { patterns : list Pattern }.
End CopyWebpackPlugin.

(** The options object passed to [new WasmPackPlugin(...)]. *)
Module WasmPackPlugin.
Record Options := { crateDirectory : string }.
End WasmPackPlugin.

(** A plugin instance is what its constructor was invoked with; what the
    constructors do with their options belongs to the plugins. *)
Inductive Plugin :=
| new_CopyWebpackPlugin (options : CopyWebpackPlugin.Options)
| new_WasmPackPlugin (options : WasmPackPlugin.Options).

Record Configuration := {
  mode : string;
  entry : gmap string string;
  output : Output.t;
  devServer : DevServer.t;
  plugins : list Plugin;
  experiments : gmap string bool
}.

(** ** The module [webpack.config.js] *)

Section webpack_config.

(** [const path = require('path')], and the directory of the module. *)
Variable path : PathModule.
Variable __dirname : string.

Definition dist : string := path.(resolve) [__dirname; "./dist"].
Definition static : string := path.(resolve) [__dirname; "./www"].

Definition config : Configuration := {|
  mode := "production";
  entry := {[ "bootstrap" := "./bootstrap.js" ]};
  output := {|
    Output.path := dist;
    Output.filename := "[name].js"
  |};
  devServer := {|
    DevServer.static := {| Static.directory := dist |}
  |};
  plugins := [
    new_CopyWebpackPlugin {|
      CopyWebpackPlugin.patterns := [
        {| CopyWebpackPlugin.from := static;
           CopyWebpackPlugin.to := dist |}
      ]
    |};
    new_WasmPackPlugin {|
      WasmPackPlugin.crateDirectory := __dirname
    |}
  ];
  experiments := {[ "asyncWebAssembly" := true ]}
|}.

End webpack_config.

(** [module.exports] after the module was loaded from [__dirname] by a
    POSIX process running in [cwd]. *)
Definition module_exports (cwd __dirname : string) : Configuration :=
  config (posix_path cwd) __dirname.

(** ** Observations on a configuration *)

(** The name of the constructor a plugin instance was made with. *)
Definition plugin_name (p : Plugin) : string :=
  match p with
  | new_CopyWebpackPlugin _ => "CopyWebpackPlugin"
  | new_WasmPackPlugin _ => "WasmPackPlugin"
  end.

(** The directory-valued fields a plugin was given. *)
Definition plugin_directories (p : Plugin) : list string :=
  match p with
  | new_CopyWebpackPlugin o =>
      flat_map (fun r => [CopyWebpackPlugin.from r; CopyWebpackPlugin.to r])
               (CopyWebpackPlugin.patterns o)
  | new_WasmPackPlugin o => [WasmPackPlugin.crateDirectory o]
  end.

(** Every directory-valued field of a configuration: the output directory,
    the directory the dev server serves, and the directories handed to the
    plugins. *)
Definition directories (c : Configuration) : list string :=
  Output.path (output c)
  :: Static.directory (DevServer.static (devServer c))
  :: flat_map plugin_directories (plugins c).

(** The placeholders of webpack's filename templates that stand for a hash
    (a length may follow the name, as in [[contenthash:8]], so the closing
    bracket is left out). *)
Definition hash_placeholders : list string :=
  [ "[hash"; "[fullhash"; "[chunkhash"; "[contenthash"; "[modulehash" ].

(** The copy rules of every asset-copy plugin of a configuration. *)
Definition copy_rules (c : Configuration) : list CopyWebpackPlugin.Pattern :=
  flat_map
    (fun p => match p with
              | new_CopyWebpackPlugin o => CopyWebpackPlugin.patterns o
              | new_WasmPackPlugin _ => []
              end)
    (plugins c).




(** ** Reading [normalizeString] in two parts

    The iterations of [normalizeString]'s loop over a stretch [rest] of the
    path that is followed by more characters, so that the end of the path
    is not met. *)

Fixpoint normalizeRun (path : string) (allowAboveRoot : bool)
    (rest : string) (i : Z) (st : posix.NormState) : posix.NormState :=
  match rest with
  | String c rest' =>
      normalizeRun path allowAboveRoot rest' (i + 1)
        (posix.normalizeStep path allowAboveRoot i c st)
  | EmptyString => st
  end.

(** The values [normalizeString] gives its variables before the loop. *)
Definition normalizeStart : posix.NormState :=
  {| posix.res := ""; posix.lastSegmentLength := 0;
     posix.lastSlash := -1; posix.dots := 0 |}.

(** The state of [normalizeString] once it has read [base] and the
    separator that follows it in [path]. *)
Definition afterBase (path : string) (allowAboveRoot : bool) (base : string)
  : posix.NormState :=
  posix.normalizeStep path allowAboveRoot (JsString.len base) "/"
    (normalizeRun path allowAboveRoot base 0 normalizeStart).

(** A state with another count of dots. *)
Definition withDots (st : posix.NormState) (d : Z) : posix.NormState :=
  {| posix.res := posix.res st;
     posix.lastSegmentLength := posix.lastSegmentLength st;
     posix.lastSlash := posix.lastSlash st;
     posix.dots := d |}.

(** ** Node's [path.resolve] on examples *)

Example posix_resolve_dist :
  posix.resolve "/tmp" ["/home/dev/ff7-viewer"; "./dist"]
  = "/home/dev/ff7-viewer/dist".
Proof. vm_compute. reflexivity. Qed.

Example posix_resolve_dotdot :
  posix.resolve "/tmp" ["/home/dev/ff7-viewer"; "../x/./y//z/.."]
  = "/home/dev/x/y".
Proof. vm_compute. reflexivity. Qed.

Example posix_resolve_relative :
  posix.resolve "/srv/app" ["a/../../b"; "./www"] = "/srv/b/www".
Proof. vm_compute. reflexivity. Qed.

Example posix_resolve_no_cwd :
  posix.resolve "" ["../a"; ""; "b/.."] = "../a".
Proof. vm_compute. reflexivity. Qed.


Example posix_resolve_dot :
  posix.resolve "/tmp" ["/home/dev/ff7-viewer"; "."] = "/home/dev/ff7-viewer".
Proof. vm_compute. reflexivity. Qed.

(** ** The exported configuration on an example

    Loaded from [/home/dev/ff7-viewer] by a process running elsewhere. *)

Example module_exports_example :
  module_exports "/tmp" "/home/dev/ff7-viewer" = {|
    mode := "production";
    entry := {[ "bootstrap" := "./bootstrap.js" ]};
    output := {|
      Output.path := "/home/dev/ff7-viewer/dist";
      Output.filename := "[name].js"
    |};
    devServer := {|
      DevServer.static :=
        {| Static.directory := "/home/dev/ff7-viewer/dist" |}
    |};
    plugins := [
      new_CopyWebpackPlugin {|
        CopyWebpackPlugin.patterns := [
          {| CopyWebpackPlugin.from := "/home/dev/ff7-viewer/www";
             CopyWebpackPlugin.to := "/home/dev/ff7-viewer/dist" |}
        ]
      |};
      new_WasmPackPlugin {|
        WasmPackPlugin.crateDirectory := "/home/dev/ff7-viewer"
      |}
    ];
    experiments := {[ "asyncWebAssembly" := true ]}
  |}.
Proof.
  unfold module_exports, config, dist, static, posix_path; simpl.
  repeat f_equal; vm_compute; reflexivity.
Qed.

(** ** Directories *)

(** C1: the output directory and the directory the dev server serves are
    one and the same path, the result of resolving ['./dist'] against the
    directory of the configuration file. *)
Theorem output_path_is_served_directory (path : PathModule) (__dirname : string) :
  let c := config path __dirname in
  Output.path (output c) = path.(resolve) [__dirname; "./dist"]
  /\ Static.directory (DevServer.static (devServer c))
     = path.(resolve) [__dirname; "./dist"]
  /\ Output.path (output c)
     = Static.directory (DevServer.static (devServer c)).
Proof. cbn. repeat split. Qed.

(** ** Plugins *)

(** C2: the plugin sequence holds exactly two plugin invocations, the
    asset-copy plugin first and the crate-compiling plugin second. *)
Theorem plugins_copy_then_wasm_pack (path : PathModule) (__dirname : string) :
  List.length (plugins (config path __dirname)) = 2%nat
  /\ plugin_name <$> plugins (config path __dirname)
     = ["CopyWebpackPlugin"; "WasmPackPlugin"].
Proof. split; reflexivity. Qed.

(** C4: the asset-copy plugin is given exactly one copy rule, from the
    resolved static-assets directory (['./www'] against the directory of
    the configuration file) to the output directory. *)
Theorem copy_plugin_single_rule (path : PathModule) (__dirname : string) :
  let c := config path __dirname in
  plugins c !! 0%nat
  = Some (new_CopyWebpackPlugin {|
      CopyWebpackPlugin.patterns := [
        {| CopyWebpackPlugin.from := path.(resolve) [__dirname; "./www"];
           CopyWebpackPlugin.to := Output.path (output c) |}
      ]
    |}).
Proof. reflexivity. Qed.

(** C10: the crate directory handed to the crate-compiling plugin is the
    directory of the configuration file itself, as it is: no path below it
    and nothing resolved against it. *)
Theorem crate_directory_is_dirname (path : PathModule) (__dirname : string) :
  plugins (config path __dirname) !! 1%nat
  = Some (new_WasmPackPlugin {|
      WasmPackPlugin.crateDirectory := __dirname
    |}).
Proof. reflexivity. Qed.

(** ** Entry, output file name, experiments, mode *)

(** C3: the entry mapping has exactly one entry; it is named
    ["bootstrap"] and its source path ends in the file name
    [bootstrap.js]. *)
Theorem entry_single_bootstrap (path : PathModule) (__dirname : string) :
  let c := config path __dirname in
  size (entry c) = 1%nat
  /\ exists source,
       map_to_list (entry c) = [("bootstrap", source)]
       /\ JsString.endsWith source "/bootstrap.js" = true.
Proof.
  cbn. split.
  - apply map_size_singleton.
  - exists "./bootstrap.js". split.
    + apply map_to_list_singleton.
    + reflexivity.
Qed.

(** C5: the output file name pattern holds no hash placeholder (indeed
    the word [hash] occurs nowhere in it); it is a template over the entry
    name. *)
Theorem output_filename_without_hash (path : PathModule) (__dirname : string) :
  let pattern := Output.filename (output (config path __dirname)) in
  Forall (fun token => JsString.includes pattern token = false)
         hash_placeholders
  /\ JsString.includes pattern "hash" = false
  /\ JsString.includes pattern "[name]" = true.
Proof.
  cbn. split; [| split; reflexivity].
  unfold hash_placeholders. repeat constructor.
Qed.

(** C6: the experiments enable asynchronous WebAssembly: the flag
    [asyncWebAssembly] is present and true. *)
Theorem experiments_async_web_assembly (path : PathModule) (__dirname : string) :
  experiments (config path __dirname) !! "asyncWebAssembly" = Some true.
Proof. cbn. apply lookup_singleton_eq. Qed.

(** C9: the mode is the string ['production']. *)
Theorem mode_is_production (path : PathModule) (__dirname : string) :
  mode (config path __dirname) = "production".
Proof. reflexivity. Qed.

(** ** Where the directories come from *)


(** ** Determinism *)

Lemma posix_isAbsolute_nonempty (p : string) :
  posix.isAbsolute p = true -> (JsString.len p =? 0)%Z = false.
Proof.
  destruct p as [| c p]; [discriminate |].
  intros _. unfold JsString.len. cbn [String.length].
  apply Z.eqb_neq. lia.
Qed.





(** ** How [normalizeString] reads a path that extends another *)

Section normalize_facts.

Import posix.

Lemma append_String (c : ascii) (p s : string) :
  String c p ++ s = String c (p ++ s).
Proof. reflexivity. Qed.

Lemma substring_app_l (p s : string) (n m : nat) :
  (n + m <= String.length p)%nat ->
  String.substring n m (p ++ s) = String.substring n m p.
Proof.
  revert n m. induction p as [| c p IH]; intros n m Hle; cbn in Hle.
  - assert (n = 0%nat) by lia. assert (m = 0%nat) by lia. subst.
    destruct s; reflexivity.
  - rewrite append_String. destruct n as [| n]; cbn [substring].
    + destruct m as [| m]; [reflexivity |].
      f_equal. apply IH. lia.
    + apply IH. lia.
Qed.

Lemma substring_app_r (p s : string) (k m : nat) :
  String.substring (String.length p + k) m (p ++ s) = String.substring k m s.
Proof.
  induction p as [| c p IH]; [reflexivity |].
  rewrite append_String. cbn [String.length Nat.add substring]. exact IH.
Qed.

Lemma substring_nothing (s : string) (n : nat) :
  String.substring n 0 s = "".
Proof.
  revert n. induction s as [| c s IH]; intros [| n]; cbn; auto.
Qed.

Lemma slice_app_l (p s : string) (a b : Z) :
  (0 <= a)%Z -> (b <= JsString.len p)%Z ->
  JsString.slice (p ++ s) a b = JsString.slice p a b.
Proof.
  intros Ha Hb. unfold JsString.slice, JsString.len in *.
  destruct (Z.le_gt_cases a b) as [Hab | Hab].
  - apply substring_app_l. lia.
  - replace (Z.to_nat (b - a)) with 0%nat by lia.
    now rewrite !substring_nothing.
Qed.

Lemma slice_app_r (p s : string) (k b : Z) :
  (0 <= k)%Z ->
  JsString.slice (p ++ s) (JsString.len p + k) (JsString.len p + b)
  = JsString.slice s k b.
Proof.
  intros Hk. unfold JsString.slice, JsString.len.
  replace (Z.to_nat (Z.of_nat (String.length p) + k))
    with (String.length p + Z.to_nat k)%nat by lia.
  replace (Z.of_nat (String.length p) + b - (Z.of_nat (String.length p) + k))%Z
    with (b - k)%Z by lia.
  apply substring_app_r.
Qed.

Lemma normalizeStep_agree (p q : string) (al : bool) (i : Z) (c : ascii)
    (st : NormState) :
  JsString.slice p (lastSlash st + 1) i = JsString.slice q (lastSlash st + 1) i ->
  normalizeStep p al i c st = normalizeStep q al i c st.
Proof. intros H. unfold normalizeStep. rewrite H. reflexivity. Qed.

Lemma normalizeStep_lastSlash_lb (p : string) (al : bool) (i : Z) (c : ascii)
    (st : NormState) :
  (0 <= i)%Z -> (-1 <= lastSlash st)%Z ->
  (-1 <= lastSlash (normalizeStep p al i c st))%Z.
Proof.
  intros Hi Hst. unfold normalizeStep, aboveRoot.
  repeat case_match; cbn [lastSlash]; lia.
Qed.

Lemma normalizeStep_separator (p : string) (al : bool) (i : Z)
    (st : NormState) :
  lastSlash (normalizeStep p al i "/" st) = i
  /\ dots (normalizeStep p al i "/" st) = 0%Z.
Proof.
  unfold normalizeStep, aboveRoot.
  change (isPosixPathSeparator "/") with true. cbv iota.
  repeat case_match; cbn [lastSlash dots]; split; reflexivity.
Qed.

Lemma normalizeStep_plain (p : string) (al : bool) (i : Z) (c : ascii)
    (st : NormState) :
  isPosixPathSeparator c = false -> Ascii.eqb c CHAR_DOT = false ->
  normalizeStep p al i c st = withDots st (-1).
Proof.
  intros Hsep Hdot. unfold normalizeStep. rewrite Hsep, Hdot. reflexivity.
Qed.

Lemma normalizeStep_dot (p : string) (al : bool) (i : Z) (st : NormState) :
  dots st <> (-1)%Z ->
  normalizeStep p al i "." st = withDots st (dots st + 1).
Proof.
  intros Hd. unfold normalizeStep.
  change (isPosixPathSeparator ".") with false.
  change (Ascii.eqb "." CHAR_DOT) with true.
  apply Z.eqb_neq in Hd. rewrite Hd. reflexivity.
Qed.

Lemma normalizeStep_current (p : string) (al : bool) (i : Z)
    (st : NormState) :
  dots st = 1%Z ->
  normalizeStep p al i "/" st
  = {| res := res st; lastSegmentLength := lastSegmentLength st;
       lastSlash := i; dots := 0 |}.
Proof.
  intros Hd. unfold normalizeStep.
  change (isPosixPathSeparator "/") with true.
  rewrite Hd, orb_true_r. reflexivity.
Qed.

Lemma normalizeStep_segment (p : string) (al : bool) (i : Z)
    (st : NormState) :
  lastSlash st <> (i - 1)%Z -> dots st <> 1%Z -> dots st <> 2%Z ->
  normalizeStep p al i "/" st
  = {| res := if (0 <? JsString.len (res st))%Z
              then res st ++ "/" ++ JsString.slice p (lastSlash st + 1) i
              else JsString.slice p (lastSlash st + 1) i;
       lastSegmentLength := i - lastSlash st - 1;
       lastSlash := i; dots := 0 |}.
Proof.
  intros Hl H1 H2. unfold normalizeStep.
  change (isPosixPathSeparator "/") with true.
  apply Z.eqb_neq in Hl, H1, H2. rewrite Hl, H1, H2. reflexivity.
Qed.

Lemma normalizeRun_lastSlash_lb (p : string) (al : bool) (r : string) :
  forall (i : Z) (st : NormState),
    (0 <= i)%Z -> (-1 <= lastSlash st)%Z ->
    (-1 <= lastSlash (normalizeRun p al r i st))%Z.
Proof.
  induction r as [| c r IH]; intros i st Hi Hst; cbn [normalizeRun].
  - exact Hst.
  - apply IH; [lia |]. now apply normalizeStep_lastSlash_lb.
Qed.

Lemma normalizeRun_agree (p q : string) (N : Z) (al : bool) :
  (forall a b, (0 <= a)%Z -> (b <= N)%Z ->
     JsString.slice p a b = JsString.slice q a b) ->
  forall (r : string) (i : Z) (st : NormState),
    (0 <= i)%Z -> (i + JsString.len r <= N)%Z -> (-1 <= lastSlash st)%Z ->
    normalizeRun p al r i st = normalizeRun q al r i st.
Proof.
  intros Hpq. induction r as [| c r IH]; intros i st Hi HN Hst;
    cbn [normalizeRun]; [reflexivity |].
  unfold JsString.len in HN. cbn [String.length] in HN.
  rewrite (normalizeStep_agree p q) by (apply Hpq; lia).
  apply IH; [lia | unfold JsString.len; lia |].
  now apply normalizeStep_lastSlash_lb.
Qed.

Lemma normalizeLoop_app (p : string) (al : bool) (r : string) (c : ascii)
    (t : string) :
  forall (i : Z) (code : ascii) (st : NormState),
    normalizeLoop p al (r ++ String c t) i code st
    = normalizeLoop p al t (i + JsString.len r + 1) c
        (normalizeStep p al (i + JsString.len r) c (normalizeRun p al r i st)).
Proof.
  induction r as [| d r IH]; intros i code st.
  - change ("" ++ String c t) with (String c t).
    cbn [normalizeLoop normalizeRun]. unfold JsString.len. cbn [String.length].
    now rewrite Z.add_0_r.
  - rewrite append_String. cbn [normalizeLoop normalizeRun].
    rewrite IH. unfold JsString.len. cbn [String.length].
    replace (i + 1 + Z.of_nat (String.length r))%Z
      with (i + Z.of_nat (S (String.length r)))%Z by lia.
    reflexivity.
Qed.

Lemma normalizeString_base (al : bool) (base tail : string) :
  normalizeString (base ++ String "/" tail) al
  = res (normalizeLoop (base ++ String "/" tail) al tail
           (JsString.len base + 1) "/"
           (afterBase (base ++ String "/" tail) al base)).
Proof.
  unfold normalizeString. rewrite normalizeLoop_app. reflexivity.
Qed.

Lemma afterBase_tail (al : bool) (base tail : string) :
  afterBase (base ++ String "/" tail) al base = afterBase (base ++ "/") al base.
Proof.
  assert (Hpq : forall a b, (0 <= a)%Z -> (b <= JsString.len base)%Z ->
            JsString.slice (base ++ String "/" tail) a b
            = JsString.slice (base ++ "/") a b).
  { intros a b Ha Hb. now rewrite !slice_app_l. }
  assert (Hlen : (0 <= JsString.len base)%Z) by (unfold JsString.len; lia).
  unfold afterBase.
  rewrite (normalizeRun_agree _ _ _ al Hpq base 0 normalizeStart);
    [| lia | lia | cbn; lia].
  apply normalizeStep_agree, Hpq; [| lia].
  pose proof (normalizeRun_lastSlash_lb (base ++ "/") al base 0
                normalizeStart) as Hlb.
  cbn [lastSlash normalizeStart] in Hlb. lia.
Qed.

Lemma normalizeString_slash (al : bool) (base : string) :
  normalizeString (base ++ "/") al = res (afterBase (base ++ "/") al base).
Proof. rewrite normalizeString_base. reflexivity. Qed.

Lemma normalizeString_dist (al : bool) (base : string) :
  normalizeString (base ++ "/./dist/") al
  = let parent := normalizeString (base ++ "/") al in
    if (0 <? JsString.len parent)%Z then parent ++ "/dist" else "dist".
Proof.
  cbv zeta. rewrite normalizeString_slash, <- (afterBase_tail al base "./dist/").
  rewrite normalizeString_base.
  set (path := base ++ "/./dist/").
  set (n := JsString.len base).
  set (st := afterBase path al base).
  assert (Hls : lastSlash st = n) by apply normalizeStep_separator.
  assert (Hd : dots st = 0%Z) by apply normalizeStep_separator.
  clearbody st.
  cbn [normalizeLoop].
  change (isPosixPathSeparator "/") with true. cbv iota.
  rewrite (normalizeStep_dot path al (n + 1) st) by (rewrite Hd; lia).
  rewrite (normalizeStep_current path al (n + 1 + 1)) by (cbn; lia).
  rewrite (normalizeStep_plain path al _ "d") by reflexivity.
  rewrite (normalizeStep_plain path al _ "i") by reflexivity.
  rewrite (normalizeStep_plain path al _ "s") by reflexivity.
  rewrite (normalizeStep_plain path al _ "t") by reflexivity.
  rewrite normalizeStep_segment by (cbn; lia).
  cbn [res lastSlash withDots].
  replace (n + 1 + 1 + 1 + 1 + 1 + 1 + 1)%Z with (n + 7)%Z by lia.
  replace (n + 1 + 1 + 1)%Z with (n + 3)%Z by lia.
  subst path n. rewrite (slice_app_r base "/./dist/" 3 7) by lia.
  reflexivity.
Qed.

Lemma normalizeString_www (al : bool) (base : string) :
  normalizeString (base ++ "/./www/") al
  = let parent := normalizeString (base ++ "/") al in
    if (0 <? JsString.len parent)%Z then parent ++ "/www" else "www".
Proof.
  cbv zeta. rewrite normalizeString_slash, <- (afterBase_tail al base "./www/").
  rewrite normalizeString_base.
  set (path := base ++ "/./www/").
  set (n := JsString.len base).
  set (st := afterBase path al base).
  assert (Hls : lastSlash st = n) by apply normalizeStep_separator.
  assert (Hd : dots st = 0%Z) by apply normalizeStep_separator.
  clearbody st.
  cbn [normalizeLoop].
  change (isPosixPathSeparator "/") with true. cbv iota.
  rewrite (normalizeStep_dot path al (n + 1) st) by (rewrite Hd; lia).
  rewrite (normalizeStep_current path al (n + 1 + 1)) by (cbn; lia).
  rewrite !(normalizeStep_plain path al _ "w") by reflexivity.
  rewrite normalizeStep_segment by (cbn; lia).
  cbn [res lastSlash withDots].
  replace (n + 1 + 1 + 1 + 1 + 1 + 1)%Z with (n + 6)%Z by lia.
  replace (n + 1 + 1 + 1)%Z with (n + 3)%Z by lia.
  subst path n. rewrite (slice_app_r base "/./www/" 3 6) by lia.
  reflexivity.
Qed.


Lemma posix_resolve_base (cwd base : string) :
  isAbsolute base = true ->
  posix.resolve cwd [base] = "/" ++ normalizeString (base ++ "/") false.
Proof.
  intros Habs. pose proof (posix_isAbsolute_nonempty base Habs) as Hne.
  unfold posix.resolve. cbn [rev app resolveLoop].
  rewrite Hne, Habs. reflexivity.
Qed.

Lemma posix_resolve_base_rel (cwd base rel : string) :
  isAbsolute base = true ->
  (JsString.len rel =? 0)%Z = false -> isAbsolute rel = false ->
  posix.resolve cwd [base; rel]
  = "/" ++ normalizeString (base ++ "/" ++ rel ++ "/") false.
Proof.
  intros Habs Hrel Hrel'.
  pose proof (posix_isAbsolute_nonempty base Habs) as Hne.
  unfold posix.resolve. cbn [rev app resolveLoop].
  rewrite Hrel, Hrel', Hne, Habs. reflexivity.
Qed.

End normalize_facts.

(** ** The resolved directories on a POSIX host *)

Lemma append_assoc (p q r : string) : (p ++ q) ++ r = p ++ (q ++ r).
Proof.
  induction p as [| c p IH]; [reflexivity |].
  rewrite !append_String. now rewrite IH.
Qed.

Lemma prefix_append (p a b : string) :
  String.prefix (p ++ a) (p ++ b) = String.prefix a b.
Proof.
  induction p as [| c p IH]; [reflexivity |].
  rewrite !append_String. cbn [String.prefix].
  destruct (ascii_dec c c) as [_ | Hc]; [exact IH | now destruct Hc].
Qed.

(** [path.resolve(base, './dist')] and [path.resolve(base, './www')] are
    the entries [dist] and [www] of the directory [path.resolve(base)];
    directly below the root no second separator is written. *)
Lemma posix_resolve_children (cwd base : string) :
  posix.isAbsolute base = true ->
  let root := posix.resolve cwd [base] in
  let parent := if String.eqb root "/" then "" else root in
  posix.resolve cwd [base; "./dist"] = parent ++ "/dist"
  /\ posix.resolve cwd [base; "./www"] = parent ++ "/www".
Proof.
  intros Habs. cbv zeta.
  rewrite (posix_resolve_base cwd base Habs).
  rewrite !(posix_resolve_base_rel cwd base) by (reflexivity || exact Habs).
  change (base ++ "/" ++ "./dist" ++ "/") with (base ++ "/./dist/").
  change (base ++ "/" ++ "./www" ++ "/") with (base ++ "/./www/").
  rewrite normalizeString_dist, normalizeString_www. cbv zeta.
  destruct (posix.normalizeString (base ++ "/") false) as [| c parent].
  - split; reflexivity.
  - split; reflexivity.
Qed.

(** X1: loaded from an absolute [__dirname], every directory the exported
    configuration names is an absolute path. *)
Theorem directories_absolute (cwd __dirname : string) :
  posix.isAbsolute __dirname = true ->
  Forall (fun x => posix.isAbsolute x = true)
         (directories (module_exports cwd __dirname)).
Proof.
  intros Habs.
  destruct (posix_resolve_children cwd __dirname Habs) as [Hdist Hwww].
  rewrite (posix_resolve_base cwd __dirname Habs) in Hdist, Hwww.
  assert (Hd : posix.isAbsolute (posix.resolve cwd [__dirname; "./dist"]) = true).
  { rewrite Hdist.
    destruct (posix.normalizeString (__dirname ++ "/") false); reflexivity. }
  assert (Hw : posix.isAbsolute (posix.resolve cwd [__dirname; "./www"]) = true).
  { rewrite Hwww.
    destruct (posix.normalizeString (__dirname ++ "/") false); reflexivity. }
  unfold module_exports, directories, config, dist, static. cbn.
  repeat apply Forall_cons_2; auto using Forall_nil_2.
Qed.

Lemma directories_absolute_witness :
  posix.isAbsolute "/srv/ff7//viewer/" = true
  /\ Forall (fun x => posix.isAbsolute x = true)
            (directories (module_exports "/tmp" "/srv/ff7//viewer/")).
Proof.
  split; [reflexivity |].
  apply (directories_absolute "/tmp" "/srv/ff7//viewer/"). reflexivity.
Defined.

(** X2: the output directory, which the dev server serves and the copy
    rule writes to, is the entry [dist] of the resolved [__dirname], and
    the source of the copy rule is its entry [www], whatever dot segments
    or repeated or trailing separators [__dirname] is spelled with. *)
Theorem output_and_static_below_dirname (cwd __dirname : string) :
  posix.isAbsolute __dirname = true ->
  let c := module_exports cwd __dirname in
  let root := posix.resolve cwd [__dirname] in
  let parent := if String.eqb root "/" then "" else root in
  Output.path (output c) = parent ++ "/dist"
  /\ Static.directory (DevServer.static (devServer c)) = parent ++ "/dist"
  /\ copy_rules c
     = [ {| CopyWebpackPlugin.from := parent ++ "/www";
            CopyWebpackPlugin.to := parent ++ "/dist" |} ].
Proof.
  intros Habs. cbv zeta.
  destruct (posix_resolve_children cwd __dirname Habs) as [Hdist Hwww].
  unfold module_exports, copy_rules, config, dist, static. cbn.
  rewrite Hdist, Hwww. repeat split.
Qed.

Lemma output_and_static_below_dirname_witness :
  posix.isAbsolute "/srv/../srv/./ff7-viewer//" = true
  /\ let c := module_exports "/tmp" "/srv/../srv/./ff7-viewer//" in
     Output.path (output c) = "/srv/ff7-viewer" ++ "/dist"
     /\ Static.directory (DevServer.static (devServer c))
        = "/srv/ff7-viewer" ++ "/dist"
     /\ copy_rules c
        = [ {| CopyWebpackPlugin.from := "/srv/ff7-viewer" ++ "/www";
               CopyWebpackPlugin.to := "/srv/ff7-viewer" ++ "/dist" |} ].
Proof.
  split; [reflexivity |].
  apply (output_and_static_below_dirname "/tmp" "/srv/../srv/./ff7-viewer//").
  reflexivity.
Defined.

(** X3: loaded from an absolute [__dirname], no copy rule of the exported
    configuration copies a directory onto itself, into a directory below
    itself, or from a directory below its destination. *)
Theorem copy_rules_apart (cwd __dirname : string) :
  posix.isAbsolute __dirname = true ->
  Forall
    (fun r =>
       CopyWebpackPlugin.from r <> CopyWebpackPlugin.to r
       /\ String.prefix (CopyWebpackPlugin.from r ++ "/")
                        (CopyWebpackPlugin.to r) = false
       /\ String.prefix (CopyWebpackPlugin.to r ++ "/")
                        (CopyWebpackPlugin.from r) = false)
    (copy_rules (module_exports cwd __dirname)).
Proof.
  intros Habs.
  destruct (posix_resolve_children cwd __dirname Habs) as [Hdist Hwww].
  unfold module_exports, copy_rules, config, dist, static. cbn.
  rewrite Hdist, Hwww. apply Forall_cons_2; [| apply Forall_nil_2].
  cbn [CopyWebpackPlugin.from CopyWebpackPlugin.to].
  rewrite !append_assoc, !prefix_append. repeat split.
  intros Heq. apply (inj (String.app _)) in Heq. discriminate Heq.
Qed.

Lemma copy_rules_apart_witness :
  posix.isAbsolute "/" = true
  /\ Forall
       (fun r =>
          CopyWebpackPlugin.from r <> CopyWebpackPlugin.to r
          /\ String.prefix (CopyWebpackPlugin.from r ++ "/")
                           (CopyWebpackPlugin.to r) = false
          /\ String.prefix (CopyWebpackPlugin.to r ++ "/")
                           (CopyWebpackPlugin.from r) = false)
       (copy_rules (module_exports "/tmp" "/")).
Proof.
  split; [reflexivity |].
  apply (copy_rules_apart "/tmp" "/"). reflexivity.
Defined.


(** ** Every directory as a resolution against [__dirname] *)



